(** * structs_layout: the layout type model of [fields.py]

    A shallow embedding of the classes of [fields.py] (the layout types a
    dump is rebuilt from) together with Python's [==] protocol on them, and
    of the part of the dump protocol that the repository's tests exercise. *)

From Stdlib Require Import ZArith String List Bool Lia.
From stdpp Require Import base gmap strings list fin_maps.

Local Open Scope Z_scope.
Local Open Scope string_scope.
Local Open Scope list_scope.
Import ListNotations.

(** ** Python results *)

Module Py.

(** The only exception the code of [fields.py] can raise. *)
Inductive exception : Set := TypeError.

Inductive result (A : Type) : Type :=
  | Ok (a : A)
  | Raise (e : exception).
Arguments Ok {A} a.
Arguments Raise {A} e.

#[export] Instance result_bind : MBind result := fun A B k r =>
  match r with
  | Ok a => k a
  | Raise e => Raise e
  end.

(** [NotImplemented] is the sentinel a rich-comparison method returns when it
    does not handle its operand; a method returns it or a boolean. *)
Definition NotImplemented : option bool := None.

(** [x and y] evaluates [y] only when [x] is true and then is [y] itself. *)
Definition py_and (x : bool) (y : option bool) : option bool :=
  if x then y else Some false.

End Py.
Export Py.

(** ** The classes of [fields.py] *)

Inductive cls : Set :=
  | cVoid | cBitfield | cScalar | cStructField | cUnionField
  | cFunction | cPointer | cArray.

(** An instance of one of the concrete classes, given by the attributes its
    [__init__] assigns.  Sizes and counts are Python integers, names are
    strings, and a pointer or array owns the type it refers to.  The base
    class [Type] only supplies [total_size] and its comparison to the
    concrete classes; a dump names none but these. *)
Inductive Type_ : Set :=
  | Void (total_size : Z)
  | Bitfield (total_size : Z)
  | Scalar (total_size : Z) (type_ : string)
  | StructField (total_size : Z) (type_ : string)
  | UnionField (total_size : Z) (type_ : string)
  | Function (total_size : Z) (type_ : string)
  | Pointer (total_size : Z) (pointed_type : Type_)
  | Array (total_size : Z) (num_elem : Z) (elem_type : Type_).

(** A value passed as a positional argument of a call. *)
Inductive value : Set :=
  | VInt (z : Z)
  | VStr (s : string)
  | VBool (b : bool)
  | VType (t : Type_).

Definition class_of (t : Type_) : cls :=
  match t with
  | Void _ => cVoid
  | Bitfield _ => cBitfield
  | Scalar _ _ => cScalar
  | StructField _ _ => cStructField
  | UnionField _ _ => cUnionField
  | Function _ _ => cFunction
  | Pointer _ _ => cPointer
  | Array _ _ _ => cArray
  end.

(** The attribute [total_size], which [Type.__init__] sets on every instance. *)
Definition total_size (t : Type_) : Z :=
  match t with
  | Void ts | Bitfield ts | Scalar ts _ | StructField ts _ | UnionField ts _
  | Function ts _ | Pointer ts _ | Array ts _ _ => ts
  end.

Fixpoint height (t : Type_) : nat :=
  match t with
  | Pointer _ p => S (height p)
  | Array _ _ e => S (height e)
  | _ => O
  end.

(** ** Initializers *)

(** Python binds the positional arguments of a call to the parameters of the
    callee before its body runs.  [extra] holds the arguments that are left
    once every declared parameter has one; the callee has no parameter for
    them, so a non-empty [extra] raises [TypeError] and the body is skipped. *)
Definition call {A : Type} (extra : list value) (body : result A) : result A :=
  match extra with
  | [] => body
  | _ :: _ => Raise TypeError
  end.

(** [Type.__init__(self, total_size)]: returns the value stored in
    [self.total_size]. *)
Definition Type___init__ (total_size : Z) (extra : list value) : result Z :=
  call extra (Ok total_size).

(** [Void.__init__(self)] *)
Definition Void___init__ (extra : list value) : result Type_ :=
  call extra (ts ← Type___init__ 0 []; Ok (Void ts)).

(** [Bitfield.__init__(self, total_size)] *)
Definition Bitfield___init__ (total_size : Z) (extra : list value) : result Type_ :=
  call extra (ts ← Type___init__ total_size []; Ok (Bitfield ts)).

(** [Scalar.__init__(self, total_size, type_)] *)
Definition Scalar___init__ (total_size : Z) (type_ : string) (extra : list value)
  : result Type_ :=
  call extra (ts ← Type___init__ total_size []; Ok (Scalar ts type_)).

(** [StructField.__init__(self, total_size, type_)] *)
Definition StructField___init__ (total_size : Z) (type_ : string) (extra : list value)
  : result Type_ :=
  call extra (ts ← Type___init__ total_size []; Ok (StructField ts type_)).

(** [UnionField.__init__(self, total_size, type_)] *)
Definition UnionField___init__ (total_size : Z) (type_ : string) (extra : list value)
  : result Type_ :=
  call extra (ts ← Type___init__ total_size []; Ok (UnionField ts type_)).

(** [Function.__init__(self, total_size, type_)]: the base initializer is
    handed [type_] as a second argument. *)
Definition Function___init__ (total_size : Z) (type_ : string) (extra : list value)
  : result Type_ :=
  call extra (ts ← Type___init__ total_size [VStr type_]; Ok (Function ts type_)).

(** [Pointer.__init__(self, total_size, pointed_type)] *)
Definition Pointer___init__ (total_size : Z) (pointed_type : Type_) (extra : list value)
  : result Type_ :=
  call extra (ts ← Type___init__ total_size []; Ok (Pointer ts pointed_type)).

(** [Array.__init__(self, total_size, num_elem, elem_type)] *)
Definition Array___init__ (total_size num_elem : Z) (elem_type : Type_)
  (extra : list value) : result Type_ :=
  call extra (ts ← Type___init__ total_size []; Ok (Array ts num_elem elem_type)).

(** The instances that calls of the classes can produce. *)
Inductive constructed : Type_ -> Prop :=
  | constructed_Void t :
      Void___init__ [] = Ok t -> constructed t
  | constructed_Bitfield ts t :
      Bitfield___init__ ts [] = Ok t -> constructed t
  | constructed_Scalar ts ty t :
      Scalar___init__ ts ty [] = Ok t -> constructed t
  | constructed_StructField ts ty t :
      StructField___init__ ts ty [] = Ok t -> constructed t
  | constructed_UnionField ts ty t :
      UnionField___init__ ts ty [] = Ok t -> constructed t
  | constructed_Function ts ty t :
      Function___init__ ts ty [] = Ok t -> constructed t
  | constructed_Pointer ts p t :
      constructed p -> Pointer___init__ ts p [] = Ok t -> constructed t
  | constructed_Array ts n e t :
      constructed e -> Array___init__ ts n e [] = Ok t -> constructed t.

(** ** Equality *)

(** [Type.__eq__(self, other)], with [self] given by its [total_size].  Every
    [other] of type [Type_] is an instance of [Type], so the [isinstance]
    test passes. *)
Definition Type___eq__ (self_total_size : Z) (other : Type_) : option bool :=
  Some (self_total_size =? total_size other)%Z.

Section Methods.

(** The operator [==] on the attributes that are themselves layout types. *)
Variable op_eq : Type_ -> Type_ -> bool.

Definition Void___eq__ (self_total_size : Z) (other : Type_) : option bool :=
  match other with
  | Void _ => Type___eq__ self_total_size other
  | _ => NotImplemented
  end.

Definition Bitfield___eq__ (self_total_size : Z) (other : Type_) : option bool :=
  match other with
  | Bitfield _ => Type___eq__ self_total_size other
  | _ => NotImplemented
  end.

(** [Scalar.__eq__] first prints its operands; the answer does not depend on
    that. *)
Definition Scalar___eq__ (self_total_size : Z) (self_type : string) (other : Type_)
  : option bool :=
  match other with
  | Scalar _ other_type =>
      py_and (String.eqb self_type other_type) (Type___eq__ self_total_size other)
  | _ => NotImplemented
  end.

Definition StructField___eq__ (self_total_size : Z) (self_type : string)
  (other : Type_) : option bool :=
  match other with
  | StructField _ other_type =>
      py_and (String.eqb self_type other_type) (Type___eq__ self_total_size other)
  | _ => NotImplemented
  end.

Definition UnionField___eq__ (self_total_size : Z) (self_type : string)
  (other : Type_) : option bool :=
  match other with
  | UnionField _ other_type =>
      py_and (String.eqb self_type other_type) (Type___eq__ self_total_size other)
  | _ => NotImplemented
  end.

(** [Function.__eq__] does not read [self.type]. *)
Definition Function___eq__ (self_total_size : Z) (self_type : string)
  (other : Type_) : option bool :=
  match other with
  | Function _ _ => Type___eq__ self_total_size other
  | _ => NotImplemented
  end.

Definition Pointer___eq__ (self_total_size : Z) (self_pointed_type : Type_)
  (other : Type_) : option bool :=
  match other with
  | Pointer _ other_pointed_type =>
      py_and (op_eq self_pointed_type other_pointed_type)
             (Type___eq__ self_total_size other)
  | _ => NotImplemented
  end.

Definition Array___eq__ (self_total_size self_num_elem : Z) (self_elem_type : Type_)
  (other : Type_) : option bool :=
  match other with
  | Array _ other_num_elem other_elem_type =>
      py_and ((self_num_elem =? other_num_elem)%Z
              && op_eq self_elem_type other_elem_type)
             (Type___eq__ self_total_size other)
  | _ => NotImplemented
  end.

(** [type(self).__eq__(self, other)] *)
Definition method_eq (self other : Type_) : option bool :=
  match self with
  | Void ts => Void___eq__ ts other
  | Bitfield ts => Bitfield___eq__ ts other
  | Scalar ts ty => Scalar___eq__ ts ty other
  | StructField ts ty => StructField___eq__ ts ty other
  | UnionField ts ty => UnionField___eq__ ts ty other
  | Function ts ty => Function___eq__ ts ty other
  | Pointer ts p => Pointer___eq__ ts p other
  | Array ts n e => Array___eq__ ts n e other
  end.

(** The operator [a == b]: [a.__eq__(b)], then the reflected
    [b.__eq__(a)] when the first answer is [NotImplemented], then identity.
    No concrete class derives from another, so the reflected method never
    takes priority; and both methods answer [NotImplemented] only for
    operands of different classes, which are different objects. *)
Definition rich_compare (a b : Type_) : bool :=
  match method_eq a b with
  | Some r => r
  | None =>
      match method_eq b a with
      | Some r => r
      | None => false
      end
  end.

End Methods.

(** [==] nested to depth [n]. *)
Fixpoint eq_depth (n : nat) (a b : Type_) : bool :=
  match n with
  | O => false
  | S n' => rich_compare (eq_depth n') a b
  end.

(** [a == b].  Each nested comparison descends into an attribute of both
    operands, so the nesting is bounded by their heights. *)
Definition py_eq (a b : Type_) : bool :=
  eq_depth (S (height a + height b)) a b.

(** ** What the comparisons observe *)

(** The part of an instance that the comparisons read: everything except the
    [type] attribute of a [Function]. *)
Fixpoint compared (t : Type_) : Type_ :=
  match t with
  | Function ts _ => Function ts ""
  | Pointer ts p => Pointer ts (compared p)
  | Array ts n e => Array ts n (compared e)
  | _ => t
  end.

(** No [Function] occurs in an instance. *)
Fixpoint Function_free (t : Type_) : Prop :=
  match t with
  | Function _ _ => False
  | Pointer _ p => Function_free p
  | Array _ _ e => Function_free e
  | _ => True
  end.

(** The equality the specification describes: same variant, equal
    variant-specific attributes (nested types compared in the same way), and
    equal total sizes.  The variant-specific attributes are the type name of
    a [Scalar], the referenced name of a [StructField] or [UnionField], the
    pointee of a [Pointer], and the element count and element type of an
    [Array]; [Void], [Bitfield] and [Function] have none. *)
Fixpoint StructurallyEqual_spec (a b : Type_) : Prop :=
  class_of a = class_of b /\
  match a, b with
  | Scalar _ ty, Scalar _ ty' => ty = ty'
  | StructField _ ty, StructField _ ty' => ty = ty'
  | UnionField _ ty, UnionField _ ty' => ty = ty'
  | Pointer _ p, Pointer _ p' => StructurallyEqual_spec p p'
  | Array _ n e, Array _ n' e' => n = n' /\ StructurallyEqual_spec e e'
  | _, _ => True
  end /\
  total_size a = total_size b.

(** The instances in which no [Function] occurs and every [Void] has total
    size 0. *)
Fixpoint constructible (t : Type_) : Prop :=
  match t with
  | Void ts => ts = 0
  | Function _ _ => False
  | Pointer _ p => constructible p
  | Array _ _ e => constructible e
  | _ => True
  end.

(** * The dump protocol *)

(** Modelled from the spec: the aggregate record [Struct] of the module the
    tests import, which is not among the sources.  It holds the total size of
    the aggregate in bits and [fields], an ordered mapping from field name to
    the pair of the field's offset in bits and its type. *)
Record Struct : Set := mkStruct {
  Struct_total_size : Z;
  fields : list (string * (Z * Type_))
}.

Section Dict.

Context {V : Type}.

(** Modelled from the spec: the ordered mapping of [fields], with the
    behaviour of a Python dict: [d[k] = v] replaces the value of a key that is
    present, in place, and appends a key that is not. *)
Fixpoint dict_set (k : string) (v : V) (d : list (string * V)) : list (string * V) :=
  match d with
  | [] => [(k, v)]
  | (k', v') :: d' =>
      if String.eqb k k' then (k, v) :: d' else (k', v') :: dict_set k v d'
  end.

(** Modelled from the spec: [d.get(k)]. *)
Fixpoint dict_get (k : string) (d : list (string * V)) : option V :=
  match d with
  | [] => None
  | (k', v') :: d' => if String.eqb k k' then Some v' else dict_get k d'
  end.

(** Modelled from the spec: [d.keys()], in insertion order. *)
Definition keys (d : list (string * V)) : list string := map fst d.

End Dict.

(** Modelled from the spec: a type of the translation unit as the external
    tool sees it after the compiler's analysis, which supplies the sizes.  An
    aggregate is referred to through its tag ([struct s]) or through a typedef
    name ([s_t]). *)
Inductive c_type : Set :=
  | c_void
  | c_scalar (name : string) (bits : Z)
  | c_tag (tag : string) (bits : Z)
  | c_typedef (name : string) (bits : Z)
  | c_pointer (bits : Z) (pointee : c_type)
  | c_array (count : Z) (element : c_type).

(** Modelled from the spec: a named member and the offset the compiler gave it. *)
Record member : Set := mkMember {
  m_name : string;
  m_offset : Z;
  m_type : c_type
}.

(** Modelled from the spec: the declarations that introduce aggregates and
    names for them:
    [struct tag { members };], [typedef struct { members } name;] and
    [typedef struct tag name;]. *)
Inductive declaration : Set :=
  | tagged (tag : string) (size : Z) (members : list member)
  | typedef_anonymous (name : string) (size : Z) (members : list member)
  | typedef_alias (name : string) (tag : string).

(** Modelled from the spec: the name under which a typedef name refers to an
    aggregate: the tag when the typedef is an alias of a tagged aggregate,
    the typedef name itself otherwise. *)
Definition resolve (aliases : gmap string string) (name : string) : string :=
  default name (aliases !! name).

(** Modelled from the spec: the layout type the dump gives for a member's
    type.  A member of aggregate type is stored by name, a pointer has the
    width the compiler reports, and the total size of an array is its element
    count times the size of an element. *)
Fixpoint layout_type (aliases : gmap string string) (t : c_type) : Type_ :=
  match t with
  | c_void => Void 0
  | c_scalar name bits => Scalar bits name
  | c_tag tag bits => StructField bits tag
  | c_typedef name bits => StructField bits (resolve aliases name)
  | c_pointer bits pointee => Pointer bits (layout_type aliases pointee)
  | c_array count element =>
      Array (count * total_size (layout_type aliases element)) count
            (layout_type aliases element)
  end.

(** Modelled from the spec: the record of one aggregate; members enter
    [fields] in declaration order. *)
Definition layout_of (aliases : gmap string string) (size : Z) (members : list member)
  : Struct :=
  {| Struct_total_size := size;
     fields := fold_left
                 (fun d m => dict_set (m_name m)
                               (m_offset m, layout_type aliases (m_type m)) d)
                 members [] |}.

(** Modelled from the spec: what has been seen of a translation unit: the
    typedef aliases of tagged aggregates, and [structs], the mapping from
    aggregate name to record that the dump populates. *)
Record dump_state : Type := mkState {
  aliases : gmap string string;
  structs : gmap string Struct
}.

(** Modelled from the spec: the naming rule.  A tagged aggregate is keyed by
    its tag, an anonymous aggregate introduced by a typedef is keyed by the
    typedef name, and a typedef alias of a tagged aggregate adds no key. *)
Definition declare (st : dump_state) (d : declaration) : dump_state :=
  match d with
  | tagged tag size members =>
      {| aliases := aliases st;
         structs := <[tag := layout_of (aliases st) size members]> (structs st) |}
  | typedef_anonymous name size members =>
      {| aliases := aliases st;
         structs := <[name := layout_of (aliases st) size members]> (structs st) |}
  | typedef_alias name tag =>
      {| aliases := <[name := tag]> (aliases st);
         structs := structs st |}
  end.

(** Modelled from the spec: the table of every aggregate of a translation unit. *)
Definition dump_all (struct_code : list declaration) : gmap string Struct :=
  structs (fold_left declare struct_code {| aliases := ∅; structs := ∅ |}).

(** Modelled from the spec: the aggregate that a field type names, directly
    or through pointers and arrays. *)
Fixpoint named_reference (t : Type_) : option string :=
  match t with
  | StructField _ name | UnionField _ name => Some name
  | Pointer _ p => named_reference p
  | Array _ _ e => named_reference e
  | _ => None
  end.

(** Modelled from the spec: the aggregates of the table that the fields of
    aggregate [k] reference. *)
Definition successors (table : gmap string Struct) (k : string) : gset string :=
  match table !! k with
  | Some layout =>
      list_to_set (omap (fun f => named_reference (snd (snd f))) (fields layout))
      ∩ dom table
  | None => ∅
  end.

(** Modelled from the spec: one round of following references. *)
Definition expand (table : gmap string Struct) (found : gset string) : gset string :=
  found ∪ set_bind (successors table) found.

(** Modelled from the spec: the target aggregate and the transitive closure
    of the aggregates it references.  A round that adds nothing ends the
    search, and each other round adds a key of the table, so as many rounds as
    the table has keys are enough. *)
Definition necessary (table : gmap string Struct) (target : string) : gset string :=
  if decide (target ∈ dom table)
  then Nat.iter (size (dom table)) (expand table) {[target]}
  else ∅.

(** Modelled from the spec: the table that the dump of the external tool
    describes, for a translation unit and the target name of its [struct]
    option, if the command carries one.  With a target name the table holds
    the necessary aggregates only; without one it holds every aggregate. *)
Definition struct_layout_plugin
  (struct_code : list declaration) (target : option string)
  : gmap string Struct :=
  match target with
  | None => dump_all struct_code
  | Some target =>
      filter (fun kv => fst kv ∈ necessary (dump_all struct_code) target)
             (dump_all struct_code)
  end.

(** Modelled from the spec: [k] is the target aggregate, or an aggregate of
    the table that it references through any number of fields. *)
Inductive reaches (table : gmap string Struct) (target : string) : string -> Prop :=
  | reaches_target :
      target ∈ dom table -> reaches table target target
  | reaches_field k layout f k' :
      reaches table target k ->
      table !! k = Some layout ->
      f ∈ fields layout ->
      named_reference (snd (snd f)) = Some k' ->
      k' ∈ dom table ->
      reaches table target k'.

(** The translation units of [tests/test_struct_layout.py], with the sizes
    and offsets the tests expect of the compiler. *)
Definition int_ : c_type := c_scalar "int" 32.

Definition test_struct_basic : list declaration :=
  [tagged "x" 64 [mkMember "y" 0 int_; mkMember "z" 32 (c_scalar "unsigned char" 8)]].

Definition test_struct_dump_only_necessary : list declaration :=
  [tagged "a" 32 [mkMember "x" 0 int_]; tagged "b" 32 [mkMember "y" 0 int_]].

Definition test_struct_recursive_dump : list declaration :=
  [tagged "a" 32 [mkMember "x" 0 int_];
   tagged "b" 32 [mkMember "a" 0 (c_tag "a" 32)]].

Definition test_struct_typedefs_tagged : list declaration :=
  [tagged "s" 32 [mkMember "y" 0 int_];
   typedef_alias "s_t" "s";
   tagged "x" 32 [mkMember "s1" 0 (c_typedef "s_t" 32)]].

Definition test_struct_typedefs_anonymous : list declaration :=
  [typedef_anonymous "s_t" 32 [mkMember "y" 0 int_];
   tagged "x" 32 [mkMember "s1" 0 (c_typedef "s_t" 32)]].

(** Modelled from the spec: the translation unit defines an aggregate under
    the name [k], by a tagged definition with tag [k] or by an anonymous
    definition whose typedef name is [k]. *)
Definition defines (struct_code : list declaration) (k : string) : Prop :=
  exists size members,
    tagged k size members ∈ struct_code
    \/ typedef_anonymous k size members ∈ struct_code.

(** Modelled from the spec: the entry of [fields] that a member gives rise to. *)
Definition field_of (aliases : gmap string string) (m : member)
  : string * (Z * Type_) :=
  (m_name m, (m_offset m, layout_type aliases (m_type m))).

(** * The tests' driver *)

(** [run_gcc(code_path, output_path, struct_name)] of
    [tests/test_struct_layout.py]: the argument vector it hands to
    [subprocess.check_call].  [STRUCT_LAYOUT_SO], the absolute path of the
    plug-in, depends on where the tests are installed and is a parameter.
    [struct_name] is [None] or a string, and [if struct_name:] holds for a
    string that is not empty. *)
Definition run_gcc (STRUCT_LAYOUT_SO code_path output_path : string)
  (struct_name : option string) : list string :=
  let args :=
    ["gcc";
     String.append "-fplugin=" STRUCT_LAYOUT_SO;
     String.append "-fplugin-arg-struct_layout-output=" output_path] in
  let args :=
    match struct_name with
    | Some name =>
        if String.eqb name ""
        then args
        else args ++ [String.append "-fplugin-arg-struct_layout-struct=" name]
    | None => args
    end in
  args ++ ["-c"; "-o"; "/dev/null"; "-x"; "c"; code_path].

(** The target name that the command of [run_gcc] carries to the plug-in:
    the [struct] option is appended under [if struct_name:], that is for a
    string that is not empty. *)
Definition struct_option (struct_name : option string) : option string :=
  match struct_name with
  | Some name => if String.eqb name "" then None else Some name
  | None => None
  end.

(** [dump_struct_layout(struct_code, struct_name)] of
    [tests/test_struct_layout.py]: it runs the external tool with the command
    of [run_gcc] and returns the [structs] mapping that the tool's dump
    binds.  The temporary files and the reading of the dump are left out; the
    tool itself is [struct_layout_plugin]. *)
Definition dump_struct_layout
  (struct_code : list declaration) (struct_name : option string)
  : gmap string Struct :=
  struct_layout_plugin struct_code (struct_option struct_name).

(** * Properties of [fields.py] *)

(** ** Unfolding [==] *)

Lemma eq_depth_stable (n m : nat) (a b : Type_) :
  (height a + height b < n)%nat -> (height a + height b < m)%nat ->
  eq_depth n a b = eq_depth m a b.
Proof.
  revert m a b. induction n as [|n IH]; intros [|m] a b Hn Hm; try lia.
  destruct a, b; simpl in *; try reflexivity;
    unfold rich_compare; simpl;
    repeat match goal with
           | |- context [eq_depth n ?x ?y] => rewrite (IH m x y) by lia
           end;
    reflexivity.
Qed.

Lemma eq_depth_py_eq (n : nat) (a b : Type_) :
  (height a + height b < n)%nat -> eq_depth n a b = py_eq a b.
Proof. intros Hn. apply eq_depth_stable; lia. Qed.

Lemma py_eq_unfold (a b : Type_) : py_eq a b = rich_compare py_eq a b.
Proof.
  transitivity (rich_compare (eq_depth (height a + height b)) a b);
    [reflexivity|].
  destruct a, b; try reflexivity; unfold rich_compare;
    cbn [method_eq Pointer___eq__ Array___eq__ height];
    rewrite !eq_depth_py_eq by lia; reflexivity.
Qed.

Ltac eq_step := rewrite py_eq_unfold; unfold rich_compare; simpl.

Lemma py_eq_Pointer (ts ts' : Z) (p p' : Type_) :
  py_eq (Pointer ts p) (Pointer ts' p') = py_eq p p' && (ts =? ts')%Z.
Proof.
  eq_step. destruct (py_eq p p'); reflexivity.
Qed.

Lemma py_eq_Array (ts n ts' n' : Z) (e e' : Type_) :
  py_eq (Array ts n e) (Array ts' n' e')
  = (n =? n')%Z && py_eq e e' && (ts =? ts')%Z.
Proof.
  eq_step. destruct ((n =? n')%Z && py_eq e e'); reflexivity.
Qed.

(** Both methods answer [NotImplemented] exactly for operands of different
    classes; the identity test that [==] falls back on is then false. *)
Lemma method_eq_NotImplemented (op : Type_ -> Type_ -> bool) (a b : Type_) :
  method_eq op a b = NotImplemented <-> class_of a <> class_of b.
Proof.
  destruct a, b; simpl; unfold py_and, Type___eq__, NotImplemented;
    repeat match goal with |- context [if ?c then _ else _] => destruct c end;
    split; intros H; solve [discriminate | congruence | reflexivity].
Qed.

Lemma py_eq_class (a b : Type_) : class_of a <> class_of b -> py_eq a b = false.
Proof.
  intros H. rewrite py_eq_unfold. unfold rich_compare.
  assert (Hab : method_eq py_eq a b = NotImplemented)
    by (apply method_eq_NotImplemented; exact H).
  assert (Hba : method_eq py_eq b a = NotImplemented)
    by (apply method_eq_NotImplemented; congruence).
  unfold NotImplemented in *. rewrite Hab, Hba. reflexivity.
Qed.

Ltac eq_by_name ty ty' :=
  eq_step; destruct (String.eqb_spec ty ty'); simpl;
  [rewrite Z.eqb_eq|]; split; congruence.

Lemma py_eq_true_iff (a b : Type_) : py_eq a b = true <-> compared a = compared b.
Proof.
  revert b. induction a as [ts|ts|ts ty|ts ty|ts ty|ts ty|ts p IH|ts n e IH];
    intros [ts'|ts'|ts' ty'|ts' ty'|ts' ty'|ts' ty'|ts' p'|ts' n' e'];
    try (rewrite py_eq_class by (simpl; discriminate); simpl;
         split; intros H; discriminate H).
  - eq_step. rewrite Z.eqb_eq. split; congruence.
  - eq_step. rewrite Z.eqb_eq. split; congruence.
  - eq_by_name ty ty'.
  - eq_by_name ty ty'.
  - eq_by_name ty ty'.
  - eq_step. rewrite Z.eqb_eq. split; congruence.
  - rewrite py_eq_Pointer, andb_true_iff, Z.eqb_eq, IH. simpl.
    split; [intros [-> ->]; reflexivity | intros H; inversion H; auto].
  - rewrite py_eq_Array, !andb_true_iff, !Z.eqb_eq, IH. simpl.
    split; [intros [[-> ->] ->]; reflexivity | intros H; inversion H; auto].
Qed.

Lemma Function___init___raises (total_size : Z) (type_ : string) (extra : list value) :
  Function___init__ total_size type_ extra = Raise TypeError.
Proof. destruct extra; reflexivity. Qed.

Lemma constructed_Function_free (t : Type_) : constructed t -> Function_free t.
Proof.
  induction 1 as [t H|ts t H|ts ty t H|ts ty t H|ts ty t H|ts ty t H
                 |ts p t Hp IH H|ts n e t He IH H];
    try (rewrite Function___init___raises in H; discriminate H);
    cbv in H; injection H as <-; simpl; auto.
Qed.

Lemma Function_free_compared (t : Type_) : Function_free t -> compared t = t.
Proof.
  induction t; simpl; intros H; try reflexivity; try contradiction;
    rewrite IHt by exact H; reflexivity.
Qed.

Lemma StructurallyEqual_spec_compared (a b : Type_) :
  StructurallyEqual_spec a b <-> compared a = compared b.
Proof.
  revert b. induction a as [ts|ts|ts ty|ts ty|ts ty|ts ty|ts p IH|ts n e IH];
    intros [ts'|ts'|ts' ty'|ts' ty'|ts' ty'|ts' ty'|ts' p'|ts' n' e']; simpl;
    try (split; [intros (H & _); discriminate H | intros H; discriminate H]);
    try rewrite IH;
    (split; [intros (_ & H1 & H2); intuition congruence
            | intros H; inversion H; auto]).
Qed.

(** ** Equality of layout types *)

(** C1.  For every two instances of the concrete classes, [a == b] holds
    exactly when [a] and [b] are of the same variant, their variant-specific
    attributes are equal (a pointer's pointee and an array's element type
    being compared structurally) and their total sizes are equal; instances
    of different variants are never equal. *)
Theorem py_eq_structural (a b : Type_) :
  (py_eq a b = true <-> StructurallyEqual_spec a b)
  /\ (class_of a <> class_of b -> py_eq a b = false).
Proof.
  split; [|apply py_eq_class].
  rewrite py_eq_true_iff, StructurallyEqual_spec_compared. reflexivity.
Qed.

Lemma py_eq_structural_witness :
  py_eq (Pointer 64 (Scalar 32 "int")) (Array 64 2 (Scalar 32 "int")) = false
  /\ py_eq (Function 0 "f") (Scalar 0 "f") = false.
Proof.
  split.
  - apply (py_eq_structural (Pointer 64 (Scalar 32 "int"))
             (Array 64 2 (Scalar 32 "int"))).
    discriminate.
  - apply (py_eq_structural (Function 0 "f") (Scalar 0 "f")). discriminate.
Defined.

(** C4.  [==] on layout types is an equivalence relation: it is reflexive,
    symmetric and transitive. *)
Theorem py_eq_equivalence (a b c : Type_) :
  py_eq a a = true
  /\ (py_eq a b = true -> py_eq b a = true)
  /\ (py_eq a b = true -> py_eq b c = true -> py_eq a c = true).
Proof.
  rewrite !py_eq_true_iff. repeat split; congruence.
Qed.

Lemma py_eq_equivalence_witness :
  py_eq (Pointer 64 (Void 0)) (Pointer 64 (Void 0)) = true
  /\ py_eq (Array 64 2 (Scalar 32 "int")) (Array 64 2 (Scalar 32 "int")) = true.
Proof.
  destruct (py_eq_equivalence (Pointer 64 (Void 0)) (Pointer 64 (Void 0))
              (Pointer 64 (Void 0))) as (Hrefl & Hsym & Htrans).
  destruct (py_eq_equivalence (Array 64 2 (Scalar 32 "int"))
              (Array 64 2 (Scalar 32 "int")) (Array 64 2 (Scalar 32 "int")))
    as (Hrefl' & Hsym' & Htrans').
  split.
  - apply Hsym. reflexivity.
  - apply Htrans'; reflexivity.
Defined.

(** C5.  Two [StructField]s, and likewise two [UnionField]s, are equal exactly
    when their referenced names and their total sizes are equal.  The answer
    does not depend on how nested types are compared, so no nested comparison
    is made and nothing behind the name is visited. *)
Theorem field_reference_equality
  (ts ts' : Z) (name name' : string) (op : Type_ -> Type_ -> bool) :
  (py_eq (StructField ts name) (StructField ts' name') = true
   <-> name = name' /\ ts = ts')
  /\ (py_eq (UnionField ts name) (UnionField ts' name') = true
      <-> name = name' /\ ts = ts')
  /\ rich_compare op (StructField ts name) (StructField ts' name')
     = py_eq (StructField ts name) (StructField ts' name')
  /\ rich_compare op (UnionField ts name) (UnionField ts' name')
     = py_eq (UnionField ts name) (UnionField ts' name').
Proof.
  rewrite !py_eq_true_iff. simpl.
  split; [split; intros; intuition congruence|].
  split; [split; intros; intuition congruence|].
  split; rewrite py_eq_unfold; reflexivity.
Qed.

(** ** Construction *)

(** C2, as the code has it.  [Array.__init__] checks nothing: a call with
    three arguments always succeeds and stores them as given, so the product
    relation between the sizes holds exactly when the caller states it. *)
Theorem Array___init___stores (ts n : Z) (T : Type_) :
  Array___init__ ts n T [] = Ok (Array ts n T)
  /\ (total_size (Array ts n T) = n * total_size T <-> ts = n * total_size T).
Proof. split; reflexivity. Qed.

(** C2, as stated, fails: an [Array] whose stated total size is not the
    product of its element count and element size is constructed without
    error, and so is one whose stated total size is negative. *)
Lemma Array___init___accepts_mismatch :
  Array___init__ 7 2 (Scalar 32 "int") [] = Ok (Array 7 2 (Scalar 32 "int"))
  /\ total_size (Array 7 2 (Scalar 32 "int")) <> 2 * total_size (Scalar 32 "int")
  /\ Array___init__ (-64) 2 (Scalar 32 "int") []
     = Ok (Array (-64) 2 (Scalar 32 "int")).
Proof. repeat split. simpl. lia. Qed.

(** C3.  The call [Scalar(32, "int", True)] that the tests make raises
    [TypeError]: [Scalar.__init__] has no parameter for a signedness flag.
    A [Scalar] holds a total size and a type name only, and these two decide
    equality. *)
Theorem Scalar_has_no_signedness (ts ts' : Z) (ty ty' : string) :
  Scalar___init__ 32 "int" [VBool true] = Raise TypeError
  /\ Scalar___init__ 8 "unsigned char" [VBool false] = Raise TypeError
  /\ Scalar___init__ ts ty [] = Ok (Scalar ts ty)
  /\ py_eq (Scalar ts ty) (Scalar ts' ty') = String.eqb ty ty' && (ts =? ts')%Z.
Proof.
  repeat split. eq_step. destruct (String.eqb ty ty'); reflexivity.
Qed.

(** C10.  Every call of [Function] raises [TypeError], whatever its arguments:
    [Function.__init__] hands [type_] to the base initializer, which has no
    parameter for it.  So no constructed instance is a [Function], and none
    is a [Pointer] to a [Function]. *)
Theorem Function_never_constructed
  (ts : Z) (type_ : string) (extra : list value) (t : Type_) :
  Function___init__ ts type_ extra = Raise TypeError
  /\ Type___init__ ts [VStr type_] = Raise TypeError
  /\ (constructed t ->
      t <> Function ts type_ /\ forall ps, t <> Pointer ps (Function ts type_)).
Proof.
  split; [apply Function___init___raises|]. split; [reflexivity|].
  intros Ht. apply constructed_Function_free in Ht.
  split; [|intros ps]; intros ->; exact Ht.
Qed.

Lemma Function_never_constructed_witness :
  Pointer 64 (Void 0) <> Function 0 "f"
  /\ forall ps, Pointer 64 (Void 0) <> Pointer ps (Function 0 "f").
Proof.
  apply (Function_never_constructed 0 "f" [] (Pointer 64 (Void 0))).
  apply (constructed_Pointer 64 (Void 0)); [|reflexivity].
  apply constructed_Void. reflexivity.
Defined.

(** * Properties of the dump protocol *)

(** ** Ordered mappings *)

Section DictFacts.

Context {V : Type}.
Implicit Types (d : list (string * V)) (k : string) (v : V).

Lemma keys_dict_set k v d k' :
  k' ∈ keys (dict_set k v d) <-> k' = k \/ k' ∈ keys d.
Proof.
  unfold keys. induction d as [|[k0 v0] d IH]; simpl.
  - rewrite !elem_of_cons. tauto.
  - destruct (String.eqb_spec k k0) as [->|Hne]; simpl; rewrite !elem_of_cons.
    + tauto.
    + rewrite IH. tauto.
Qed.

Lemma NoDup_dict_set k v d : NoDup (keys d) -> NoDup (keys (dict_set k v d)).
Proof.
  induction d as [|[k0 v0] d IH]; simpl; intros Hd.
  - apply NoDup_singleton.
  - apply NoDup_cons in Hd as [Hk0 Hd].
    destruct (String.eqb_spec k k0) as [->|Hne]; simpl.
    + apply NoDup_cons. split; assumption.
    + apply NoDup_cons. split; [|apply IH, Hd].
      change (k0 ∉ keys (dict_set k v d)). rewrite keys_dict_set.
      intros [->|Hin]; [apply Hne; reflexivity | apply Hk0, Hin].
Qed.

Lemma dict_set_fresh k v d : k ∉ keys d -> dict_set k v d = d ++ [(k, v)].
Proof.
  unfold keys. induction d as [|[k0 v0] d IH]; simpl; intros Hk; [reflexivity|].
  rewrite elem_of_cons in Hk.
  destruct (String.eqb_spec k k0) as [->|Hne]; [tauto|].
  rewrite IH by tauto. reflexivity.
Qed.

Lemma dict_get_keys k d : k ∈ keys d <-> exists v, dict_get k d = Some v.
Proof.
  unfold keys. induction d as [|[k0 v0] d IH]; simpl.
  - split; [intros H; inversion H | intros [v H]; discriminate H].
  - rewrite elem_of_cons.
    destruct (String.eqb_spec k k0) as [->|Hne].
    + split; [intros _; exists v0; reflexivity | intros _; left; reflexivity].
    + rewrite <- IH. tauto.
Qed.

Lemma dict_get_elem_of k v d : dict_get k d = Some v -> (k, v) ∈ d.
Proof.
  induction d as [|[k0 v0] d IH]; simpl; [discriminate|].
  destruct (String.eqb_spec k k0) as [->|Hne].
  - intros [= ->]. apply elem_of_cons. left. reflexivity.
  - intros H. apply elem_of_cons. right. apply IH, H.
Qed.

Lemma dict_set_elem_of k v d e : e ∈ dict_set k v d -> e = (k, v) \/ e ∈ d.
Proof.
  induction d as [|[k0 v0] d IH]; simpl.
  - rewrite list_elem_of_singleton. tauto.
  - destruct (String.eqb_spec k k0) as [->|Hne]; rewrite !elem_of_cons; [tauto|].
    intros [H|H]; [tauto|]. apply IH in H. tauto.
Qed.

End DictFacts.

Lemma layout_type_constructed (al : gmap string string) (t : c_type) :
  constructed (layout_type al t).
Proof.
  induction t as [|name bits|tag bits|name bits|bits t IH|count t IH]; simpl.
  - apply constructed_Void. reflexivity.
  - apply (constructed_Scalar bits name). reflexivity.
  - apply (constructed_StructField bits tag). reflexivity.
  - apply (constructed_StructField bits (resolve al name)). reflexivity.
  - apply (constructed_Pointer bits (layout_type al t)); [exact IH | reflexivity].
  - eapply constructed_Array; [exact IH | reflexivity].
Qed.

Lemma fields_fold_elem_of (al : gmap string string) (ms : list member)
  (d : list (string * (Z * Type_))) (e : string * (Z * Type_)) :
  e ∈ fold_left (fun d m => dict_set (m_name m)
                   (m_offset m, layout_type al (m_type m)) d) ms d ->
  e ∈ d \/ exists m, m ∈ ms /\ e = field_of al m.
Proof.
  revert d. induction ms as [|m ms IH]; simpl; intros d He; [tauto|].
  apply IH in He as [He|(m' & Hm' & ->)].
  - apply dict_set_elem_of in He as [->|He]; [|tauto].
    right. exists m. split; [apply elem_of_cons; tauto | reflexivity].
  - right. exists m'. split; [apply elem_of_cons; tauto | reflexivity].
Qed.

Lemma fields_fold (al : gmap string string) (ms : list member)
  (d : list (string * (Z * Type_))) :
  NoDup (keys d) ->
  NoDup (keys (fold_left (fun d m => dict_set (m_name m)
                            (m_offset m, layout_type al (m_type m)) d) ms d))
  /\ forall f,
      f ∈ keys (fold_left (fun d m => dict_set (m_name m)
                            (m_offset m, layout_type al (m_type m)) d) ms d)
      <-> f ∈ keys d \/ exists m, m ∈ ms /\ m_name m = f.
Proof.
  revert d. induction ms as [|m ms IH]; simpl; intros d Hd.
  - split; [exact Hd|]. intros f. split; [tauto|].
    intros [H|(m & Hm & _)]; [exact H | inversion Hm].
  - destruct (IH (dict_set (m_name m)
                    (m_offset m, layout_type al (m_type m)) d)) as [Hnd Hkeys];
      [apply NoDup_dict_set, Hd|].
    split; [exact Hnd|]. intros f. rewrite Hkeys, keys_dict_set.
    split.
    + intros [[->|H]|(m' & Hm' & Hf)]; [right; exists m|left; exact H|right; exists m'];
        rewrite ?elem_of_cons; tauto.
    + intros [H|(m' & Hm' & Hf)]; [tauto|].
      apply elem_of_cons in Hm' as [->|Hm']; [left; left; symmetry; exact Hf|].
      right. exists m'. tauto.
Qed.

Lemma fields_fold_ordered (al : gmap string string) (ms : list member)
  (d : list (string * (Z * Type_))) :
  NoDup (keys d ++ map m_name ms) ->
  fold_left (fun d m => dict_set (m_name m)
               (m_offset m, layout_type al (m_type m)) d) ms d
  = d ++ map (field_of al) ms.
Proof.
  revert d. induction ms as [|m ms IH]; simpl; intros d Hd.
  - rewrite app_nil_r. reflexivity.
  - assert (Hm : m_name m ∉ keys d).
    { intros Hin. apply NoDup_app in Hd as (_ & Hd & _).
      apply (Hd _ Hin). apply elem_of_cons. left. reflexivity. }
    rewrite dict_set_fresh by exact Hm. rewrite IH.
    + rewrite <- app_assoc. reflexivity.
    + unfold keys in *. rewrite map_app. simpl. rewrite <- app_assoc. exact Hd.
Qed.

(** ** The table of a translation unit *)

Lemma defines_cons (d : declaration) (tu : list declaration) (k : string) :
  defines (d :: tu) k
  <-> (exists size ms, d = tagged k size ms \/ d = typedef_anonymous k size ms)
      \/ defines tu k.
Proof.
  unfold defines. setoid_rewrite elem_of_cons. split.
  - intros (size & ms & [[Hd|H]|[Hd|H]]); subst; eauto 7.
  - intros [(size & ms & [Hd|Hd])|(size & ms & [H|H])]; subst; eauto 7.
Qed.

Lemma declare_fold_dom (tu : list declaration) (st : dump_state) (k : string) :
  k ∈ dom (structs (fold_left declare tu st))
  <-> k ∈ dom (structs st) \/ defines tu k.
Proof.
  revert st. induction tu as [|d tu IH]; intros st; simpl.
  - split; [tauto|]. intros [H|(size & ms & [H|H])]; [exact H|inversion H..].
  - rewrite IH, defines_cons.
    destruct d as [tag size ms|name size ms|name tag]; simpl;
      rewrite ?dom_insert_L, ?elem_of_union, ?elem_of_singleton.
    + split; [intros [[->|H]|H]; eauto 8|].
      intros [H|[(size' & ms' & [[= -> _ _]|[=]])|H]]; tauto.
    + split; [intros [[->|H]|H]; eauto 8|].
      intros [H|[(size' & ms' & [[=]|[= -> _ _]])|H]]; tauto.
    + split; [tauto|].
      intros [H|[(size' & ms' & [[=]|[=]])|H]]; tauto.
Qed.

Lemma declare_fold_lookup (tu : list declaration) (st : dump_state)
  (k : string) (layout : Struct) :
  structs (fold_left declare tu st) !! k = Some layout ->
  structs st !! k = Some layout
  \/ exists al size ms,
       (tagged k size ms ∈ tu \/ typedef_anonymous k size ms ∈ tu)
       /\ layout = layout_of al size ms.
Proof.
  revert st. induction tu as [|d tu IH]; intros st; simpl; [tauto|].
  intros H. apply IH in H as [H|(al & size & ms & Hin & ->)].
  - destruct d as [tag size ms|name size ms|name tag]; simpl in H.
    + destruct (decide (tag = k)) as [->|Hne].
      * rewrite lookup_insert_eq in H.
        right. exists (aliases st), size, ms. split; [|congruence].
        left. apply elem_of_cons. left. reflexivity.
      * rewrite lookup_insert_ne in H by exact Hne. left. exact H.
    + destruct (decide (name = k)) as [->|Hne].
      * rewrite lookup_insert_eq in H.
        right. exists (aliases st), size, ms. split; [|congruence].
        right. apply elem_of_cons. left. reflexivity.
      * rewrite lookup_insert_ne in H by exact Hne. left. exact H.
    + left. exact H.
  - right. exists al, size, ms. split; [|reflexivity].
    rewrite !elem_of_cons. tauto.
Qed.

Lemma dom_dump_all (tu : list declaration) (k : string) :
  k ∈ dom (dump_all tu) <-> defines tu k.
Proof.
  unfold dump_all. rewrite declare_fold_dom. simpl. rewrite dom_empty_L.
  split; [intros [H|H]; [apply not_elem_of_empty in H; contradiction | exact H]|].
  intros H. right. exact H.
Qed.

(** ** Following references *)

Section Closure.

Variable table : gmap string Struct.

Lemma elem_of_successors (k k' : string) :
  k' ∈ successors table k
  <-> exists layout f,
        table !! k = Some layout /\ f ∈ fields layout
        /\ named_reference (snd (snd f)) = Some k' /\ k' ∈ dom table.
Proof.
  unfold successors. destruct (table !! k) as [layout|].
  - rewrite elem_of_intersection, elem_of_list_to_set, list_elem_of_omap.
    split.
    + intros [(f & Hf & Hr) Hd]. exists layout, f. auto.
    + intros (layout' & f & [= <-] & Hf & Hr & Hd). eauto.
  - split; [intros H; apply not_elem_of_empty in H; contradiction|].
    intros (layout & f & H & _). discriminate H.
Qed.

Lemma expand_increasing (found : gset string) : found ⊆ expand table found.
Proof. unfold expand. set_solver. Qed.

Lemma expand_bounded (found : gset string) :
  found ⊆ dom table -> expand table found ⊆ dom table.
Proof.
  intros Hf k. unfold expand. rewrite elem_of_union, elem_of_set_bind.
  intros [H|(k0 & _ & Hk)]; [apply Hf, H|].
  apply elem_of_successors in Hk as (_ & _ & _ & _ & _ & Hd). exact Hd.
Qed.

Lemma iter_expand_fixed (n : nat) (found : gset string) :
  expand table found = found -> Nat.iter n (expand table) found = found.
Proof. intros H. induction n as [|n IH]; simpl; [reflexivity|]. rewrite IH. exact H. Qed.

Lemma iter_expand_increasing (n : nat) (found : gset string) :
  found ⊆ Nat.iter n (expand table) found.
Proof.
  induction n as [|n IH]; simpl; [reflexivity|].
  etransitivity; [exact IH | apply expand_increasing].
Qed.

(** Once the rounds outnumber the keys not yet found, a further round adds
    nothing. *)
Lemma iter_expand_saturates (n : nat) (found : gset string) :
  found ⊆ dom table ->
  (size (dom table) <= n + size found)%nat ->
  expand table (Nat.iter n (expand table) found) = Nat.iter n (expand table) found.
Proof.
  revert found. induction n as [|n IH]; intros found Hsub Hsize; simpl.
  - assert (Heq : found = dom table)
      by (apply set_subseteq_size_eq; [exact Hsub | simpl in Hsize; lia]).
    apply (anti_symm (⊆)); [|apply expand_increasing].
    rewrite Heq at 2. apply expand_bounded, Hsub.
  - destruct (decide (expand table found = found)) as [Hfix|Hgrow].
    + rewrite iter_expand_fixed by exact Hfix. rewrite Hfix. exact Hfix.
    + rewrite <- Nat.iter_succ, Nat.iter_succ_r. apply IH.
      * apply expand_bounded, Hsub.
      * assert (found ⊂ expand table found) as Hlt%subset_size.
        { split; [apply expand_increasing|]. intros Hback. apply Hgrow.
          apply (anti_symm (⊆)); [exact Hback | apply expand_increasing]. }
        lia.
Qed.

Lemma iter_expand_sound (target : string) (n : nat) (k : string) :
  target ∈ dom table ->
  k ∈ Nat.iter n (expand table) {[target]} -> reaches table target k.
Proof.
  intros Ht. revert k. induction n as [|n IH]; simpl; intros k.
  - rewrite elem_of_singleton. intros ->. apply reaches_target, Ht.
  - unfold expand at 1. rewrite elem_of_union, elem_of_set_bind.
    intros [H|(k0 & Hk0 & Hk)]; [apply IH, H|].
    apply elem_of_successors in Hk as (layout & f & Hl & Hf & Hr & Hd).
    eapply reaches_field; eauto.
Qed.

Lemma necessary_reaches (target k : string) :
  k ∈ necessary table target <-> reaches table target k.
Proof.
  unfold necessary. destruct (decide (target ∈ dom table)) as [Ht|Ht].
  - split; [apply iter_expand_sound, Ht|].
    assert (Hfix : expand table (Nat.iter (size (dom table)) (expand table) {[target]})
                   = Nat.iter (size (dom table)) (expand table) {[target]}).
    { apply iter_expand_saturates; [|lia]. apply singleton_subseteq_l, Ht. }
    induction 1 as [_|k layout f k' _ IH Hl Hf Hr Hd].
    + apply iter_expand_increasing, elem_of_singleton. reflexivity.
    + rewrite <- Hfix. unfold expand at 1.
      apply elem_of_union. right. apply elem_of_set_bind.
      exists k. split; [exact IH|]. apply elem_of_successors. eauto 6.
  - split; [intros H; apply not_elem_of_empty in H; contradiction|].
    induction 1 as [Ht'|]; [contradiction|assumption].
Qed.

End Closure.

Lemma dom_struct_layout_plugin (tu : list declaration) (target k : string) :
  k ∈ dom (struct_layout_plugin tu (Some target))
  <-> k ∈ dom (dump_all tu) /\ reaches (dump_all tu) target k.
Proof.
  simpl. rewrite !elem_of_dom. unfold is_Some.
  setoid_rewrite map_lookup_filter_Some. simpl.
  setoid_rewrite necessary_reaches. split.
  - intros (layout & H & Hr). eauto.
  - intros [(layout & H) Hr]. eauto.
Qed.

Lemma struct_layout_plugin_subseteq (tu : list declaration) (target : option string) :
  struct_layout_plugin tu target ⊆ dump_all tu.
Proof.
  destruct target as [target|]; simpl; [apply map_filter_subseteq | reflexivity].
Qed.

(** The command of [run_gcc] depends on [struct_name] through
    [struct_option] only, and carries the target name as its fourth
    argument. *)
Lemma run_gcc_struct_option_eq
  (so code_path output_path : string) (struct_name : option string) :
  run_gcc so code_path output_path struct_name
  = run_gcc so code_path output_path (struct_option struct_name)
  /\ (forall target, struct_option struct_name = Some target ->
        run_gcc so code_path output_path struct_name !! 3%nat
        = Some (String.append "-fplugin-arg-struct_layout-struct=" target)).
Proof.
  destruct struct_name as [name|]; simpl; [|split; [reflexivity|discriminate]].
  unfold run_gcc. simpl. destruct (String.eqb name "") eqn:E; simpl.
  - split; [reflexivity|discriminate].
  - rewrite E. split; [reflexivity|]. intros target [= <-]. reflexivity.
Qed.

Lemma reaches_dom (table : gmap string Struct) (target k : string) :
  reaches table target k -> k ∈ dom table.
Proof. induction 1; assumption. Qed.

Lemma defines_alias (tu1 tu2 : list declaration) (name tag k : string) :
  defines (tu1 ++ typedef_alias name tag :: tu2) k <-> defines (tu1 ++ tu2) k.
Proof.
  unfold defines. setoid_rewrite elem_of_app. setoid_rewrite elem_of_cons.
  split; intros (size & ms & H); exists size, ms; intuition discriminate.
Qed.

(** ** The layout table *)

(** The fields that the tests read back from the table. *)
Lemma tests_read_fields :
  fields <$> dump_struct_layout test_struct_basic (Some "x") !! "x"
  = Some [("y", (0, Scalar 32 "int")); ("z", (32, Scalar 8 "unsigned char"))]
  /\ fields <$> dump_struct_layout test_struct_recursive_dump (Some "b") !! "b"
     = Some [("a", (0, StructField 32 "a"))]
  /\ fields <$> dump_struct_layout test_struct_typedefs_tagged None !! "x"
     = Some [("s1", (0, StructField 32 "s"))]
  /\ fields <$> dump_struct_layout test_struct_typedefs_anonymous None !! "x"
     = Some [("s1", (0, StructField 32 "s_t"))].
Proof. repeat split; vm_compute; reflexivity. Qed.

(** C6.  Every entry of the table is the record of an aggregate that the
    translation unit defines under that name.  The record carries the
    declared total size; its field names are unique and are the names of the
    members, each mapped to a pair of an offset and a type; and when the
    member names are distinct the fields are the members' entries in
    declaration order. *)
Theorem Struct_record
  (struct_code : list declaration) (struct_name : option string)
  (name : string) (layout : Struct) :
  dump_struct_layout struct_code struct_name !! name = Some layout ->
  exists al size members,
    (tagged name size members ∈ struct_code
     \/ typedef_anonymous name size members ∈ struct_code)
    /\ Struct_total_size layout = size
    /\ NoDup (keys (fields layout))
    /\ (forall f, f ∈ keys (fields layout) <-> exists m, m ∈ members /\ m_name m = f)
    /\ (forall f, f ∈ keys (fields layout) ->
                 exists offset type_, dict_get f (fields layout) = Some (offset, type_)
                                      /\ (f, (offset, type_)) ∈ fields layout)
    /\ (forall f offset type_,
          (f, (offset, type_)) ∈ fields layout -> constructed type_)
    /\ (NoDup (map m_name members) -> fields layout = map (field_of al) members).
Proof.
  intros H.
  assert (Hall : dump_all struct_code !! name = Some layout).
  { eapply lookup_weaken; [exact H | apply struct_layout_plugin_subseteq]. }
  apply declare_fold_lookup in Hall as [Hall|(al & size & ms & Hin & ->)];
    [simpl in Hall; rewrite lookup_empty in Hall; discriminate Hall|].
  exists al, size, ms. split; [exact Hin|]. split; [reflexivity|].
  destruct (fields_fold al ms [] (NoDup_nil_2 (A:=string))) as [Hnd Hkeys].
  split; [exact Hnd|]. split.
  - intros f. simpl. rewrite Hkeys. split; [|tauto].
    intros [Hf|Hf]; [inversion Hf | exact Hf].
  - split; [|split].
    + intros f Hf. apply dict_get_keys in Hf as [[offset type_] Hget].
      exists offset, type_. split; [exact Hget | apply dict_get_elem_of, Hget].
    + intros f offset type_ Hf. simpl in Hf.
      apply fields_fold_elem_of in Hf as [Hf|(m & _ & Hf)]; [inversion Hf|].
      injection Hf as _ _ ->. apply layout_type_constructed.
    + intros Hms. simpl. apply (fields_fold_ordered al ms []). exact Hms.
Qed.

Lemma Struct_record_witness :
  exists al size members,
    (tagged "x" size members ∈ test_struct_basic
     \/ typedef_anonymous "x" size members ∈ test_struct_basic)
    /\ Struct_total_size
         (mkStruct 64 [("y", (0, Scalar 32 "int"));
                       ("z", (32, Scalar 8 "unsigned char"))]) = size
    /\ NoDup ["y"; "z"]
    /\ (forall f, f ∈ ["y"; "z"] <-> exists m, m ∈ members /\ m_name m = f)
    /\ (forall f, f ∈ ["y"; "z"] ->
                 exists offset type_,
                   dict_get f [("y", (0, Scalar 32 "int"));
                               ("z", (32, Scalar 8 "unsigned char"))]
                   = Some (offset, type_)
                   /\ (f, (offset, type_)) ∈ [("y", (0, Scalar 32 "int"));
                                              ("z", (32, Scalar 8 "unsigned char"))])
    /\ (forall f offset type_,
          (f, (offset, type_)) ∈ [("y", (0, Scalar 32 "int"));
                                  ("z", (32, Scalar 8 "unsigned char"))] ->
          constructed type_)
    /\ (NoDup (map m_name members) ->
        [("y", (0, Scalar 32 "int")); ("z", (32, Scalar 8 "unsigned char"))]
        = map (field_of al) members).
Proof.
  apply (Struct_record test_struct_basic (Some "x") "x"
           (mkStruct 64 [("y", (0, Scalar 32 "int"));
                         ("z", (32, Scalar 8 "unsigned char"))])).
  vm_compute. reflexivity.
Defined.

(** C8.  The keys of the table are the tags of the tagged aggregates and the
    typedef names of the anonymous aggregates that a typedef introduces, and
    nothing else: a typedef alias of a tagged aggregate adds no key.  For
    [struct s {...}; typedef struct s s_t;] the table has the key "s" and not
    "s_t"; for [typedef struct {...} s_t;] it has "s_t" and not "s". *)
Theorem table_keys_naming
  (struct_code : list declaration) (struct_name : option string) (k : string) :
  (k ∈ dom (dump_struct_layout struct_code None)
   <-> (exists size members, tagged k size members ∈ struct_code)
       \/ (exists size members, typedef_anonymous k size members ∈ struct_code))
  /\ (k ∈ dom (dump_struct_layout struct_code struct_name) -> defines struct_code k)
  /\ (forall before name tag,
        dom (dump_struct_layout (before ++ typedef_alias name tag :: struct_code) None)
        = dom (dump_struct_layout (before ++ struct_code) None))
  /\ dom (dump_struct_layout test_struct_typedefs_tagged None) = {["s"; "x"]}
  /\ ("s_t" ∉ dom (dump_struct_layout test_struct_typedefs_tagged None))
  /\ dom (dump_struct_layout test_struct_typedefs_anonymous None) = {["s_t"; "x"]}
  /\ ("s" ∉ dom (dump_struct_layout test_struct_typedefs_anonymous None)).
Proof.
  split.
  { change (dump_struct_layout struct_code None) with (dump_all struct_code).
    rewrite dom_dump_all. unfold defines. split.
    - intros (size & ms & [H|H]); eauto.
    - intros [(size & ms & H)|(size & ms & H)]; eauto. }
  split.
  { unfold dump_struct_layout. destruct (struct_option struct_name) as [target|].
    - rewrite dom_struct_layout_plugin, dom_dump_all. tauto.
    - simpl. rewrite dom_dump_all. tauto. }
  split.
  { intros before name tag. apply set_eq. intros k'.
    unfold dump_struct_layout. simpl.
    rewrite !dom_dump_all. apply defines_alias. }
  repeat split; vm_compute; try reflexivity; intros H; discriminate H.
Qed.

Lemma table_keys_naming_witness :
  defines test_struct_typedefs_tagged "s"
  /\ defines test_struct_typedefs_anonymous "s_t".
Proof.
  split.
  - apply (table_keys_naming test_struct_typedefs_tagged (Some "x") "s").
    vm_compute. reflexivity.
  - apply (table_keys_naming test_struct_typedefs_anonymous None "s_t").
    vm_compute. reflexivity.
Defined.

(** C9.  With a target name, which is a string that is not empty, the table
    holds exactly the aggregates reachable from the target through named
    references, each with the record it has in the full table; with no target
    name it holds every aggregate the translation unit defines, and so it
    does for the empty name, for which the command is the one of no target.
    For two unrelated structs [a] and [b], the target "b" leaves "a" out, and
    no target keeps both. *)
Theorem dump_selection (struct_code : list declaration) (target k : string) :
  (target <> "" ->
   (k ∈ dom (dump_struct_layout struct_code (Some target))
    <-> reaches (dump_struct_layout struct_code None) target k))
  /\ (dump_struct_layout struct_code (Some target)
      ⊆ dump_struct_layout struct_code None)
  /\ (k ∈ dom (dump_struct_layout struct_code None) <-> defines struct_code k)
  /\ dump_struct_layout struct_code (Some "") = dump_struct_layout struct_code None
  /\ dom (dump_struct_layout test_struct_dump_only_necessary (Some "b")) = {["b"]}
  /\ dom (dump_struct_layout test_struct_dump_only_necessary None) = {["a"; "b"]}
  /\ dom (dump_struct_layout test_struct_recursive_dump (Some "b")) = {["a"; "b"]}.
Proof.
  split.
  { intros Hne. unfold dump_struct_layout. simpl.
    destruct (String.eqb_spec target "") as [Heq|_]; [contradiction|].
    rewrite dom_struct_layout_plugin. split; [tauto|].
    intros H. split; [eapply reaches_dom, H | exact H]. }
  split; [apply struct_layout_plugin_subseteq|].
  split; [apply dom_dump_all|].
  split; [reflexivity|].
  repeat split; vm_compute; reflexivity.
Qed.

Lemma dump_selection_witness :
  "a" ∈ dom (dump_struct_layout test_struct_recursive_dump (Some "b"))
  <-> reaches (dump_struct_layout test_struct_recursive_dump None) "b" "a".
Proof.
  apply (dump_selection test_struct_recursive_dump "b" "a"). discriminate.
Defined.

(** * Further properties of [fields.py] *)

Lemma py_eq_sym (a b : Type_) : py_eq a b = py_eq b a.
Proof.
  apply eq_true_iff_eq. rewrite !py_eq_true_iff. split; congruence.
Qed.

Lemma py_eq_compared (a a' q : Type_) :
  compared a = compared a' -> py_eq a q = py_eq a' q.
Proof.
  intros H. apply eq_true_iff_eq. rewrite !py_eq_true_iff, H. reflexivity.
Qed.

Lemma compared_shape (t : Type_) :
  class_of (compared t) = class_of t
  /\ total_size (compared t) = total_size t
  /\ height (compared t) = height t.
Proof.
  induction t as [| | | | | |ts p IH|ts n e IH]; simpl; auto.
  - destruct IH as (_ & _ & ->). auto.
  - destruct IH as (_ & _ & ->). auto.
Qed.

Lemma py_eq_shape (a b : Type_) :
  py_eq a b = true ->
  class_of a = class_of b /\ total_size a = total_size b /\ height a = height b.
Proof.
  intros H. apply py_eq_true_iff in H.
  destruct (compared_shape a) as (Hc & Hs & Hh).
  destruct (compared_shape b) as (Hc' & Hs' & Hh').
  rewrite <- Hc, <- Hs, <- Hh, <- Hc', <- Hs', <- Hh', H. auto.
Qed.

(** ** Construction *)

(** X1.  The instances that calls of the classes can produce are exactly those
    in which no [Function] occurs and every [Void] has total size 0: the
    initializers put no other condition on their arguments. *)
Theorem constructed_iff_constructible (t : Type_) :
  constructed t <-> constructible t.
Proof.
  split.
  - induction 1 as [t H|ts t H|ts ty t H|ts ty t H|ts ty t H|ts ty t H
                   |ts p t Hp IH H|ts n e t He IH H];
      try (rewrite Function___init___raises in H; discriminate H);
      cbv in H; injection H as <-; simpl; auto.
  - induction t as [ts|ts|ts ty|ts ty|ts ty|ts ty|ts p IH|ts n e IH];
      simpl; intros H.
    + subst ts. apply constructed_Void. reflexivity.
    + apply (constructed_Bitfield ts). reflexivity.
    + apply (constructed_Scalar ts ty). reflexivity.
    + apply (constructed_StructField ts ty). reflexivity.
    + apply (constructed_UnionField ts ty). reflexivity.
    + contradiction.
    + apply (constructed_Pointer ts p); [apply IH, H | reflexivity].
    + apply (constructed_Array ts n e); [apply IH, H | reflexivity].
Qed.

Ltac init_iff extra :=
  destruct extra; simpl;
  (split;
   [ intros H; first [discriminate H | injection H as <-; auto]
   | intros [H ->]; first [discriminate H | reflexivity] ]).

(** X2.  A call of a class other than [Function] succeeds exactly when it
    passes no argument beyond the declared ones, and the instance then holds
    the arguments as given ([Void] holds total size 0); any surplus argument
    raises [TypeError]. *)
Theorem init_succeeds_iff
  (extra : list value) (t p : Type_) (ts n : Z) (ty : string) :
  (Void___init__ extra = Ok t <-> extra = [] /\ t = Void 0)
  /\ (Bitfield___init__ ts extra = Ok t <-> extra = [] /\ t = Bitfield ts)
  /\ (Scalar___init__ ts ty extra = Ok t <-> extra = [] /\ t = Scalar ts ty)
  /\ (StructField___init__ ts ty extra = Ok t
      <-> extra = [] /\ t = StructField ts ty)
  /\ (UnionField___init__ ts ty extra = Ok t
      <-> extra = [] /\ t = UnionField ts ty)
  /\ (Pointer___init__ ts p extra = Ok t <-> extra = [] /\ t = Pointer ts p)
  /\ (Array___init__ ts n p extra = Ok t <-> extra = [] /\ t = Array ts n p)
  /\ (extra <> [] ->
      Void___init__ extra = Raise TypeError
      /\ Bitfield___init__ ts extra = Raise TypeError
      /\ Scalar___init__ ts ty extra = Raise TypeError
      /\ StructField___init__ ts ty extra = Raise TypeError
      /\ UnionField___init__ ts ty extra = Raise TypeError
      /\ Pointer___init__ ts p extra = Raise TypeError
      /\ Array___init__ ts n p extra = Raise TypeError).
Proof.
  do 7 (split; [init_iff extra|]).
  intros H. destruct extra; [contradiction|]. repeat split.
Qed.

Lemma init_succeeds_iff_witness :
  Void___init__ [VBool true] = Raise TypeError
  /\ Bitfield___init__ 3 [VBool true] = Raise TypeError
  /\ Scalar___init__ 3 "int" [VBool true] = Raise TypeError
  /\ StructField___init__ 3 "int" [VBool true] = Raise TypeError
  /\ UnionField___init__ 3 "int" [VBool true] = Raise TypeError
  /\ Pointer___init__ 3 (Void 0) [VBool true] = Raise TypeError
  /\ Array___init__ 3 1 (Void 0) [VBool true] = Raise TypeError.
Proof.
  apply (init_succeeds_iff [VBool true] (Void 0) (Void 0) 3 1 "int").
  discriminate.
Defined.

(** ** Equality *)

(** X3.  Any two instances that calls of [Void] produce are equal, and none of
    them equals a [Bitfield], not even one of width 0: the class is compared,
    not only the total size. *)
Theorem Void_instances_equal (extra extra' : list value) (a b : Type_) (ts : Z) :
  Void___init__ extra = Ok a -> Void___init__ extra' = Ok b ->
  py_eq a b = true
  /\ py_eq a (Bitfield ts) = false /\ py_eq (Bitfield ts) a = false.
Proof.
  intros Ha Hb. destruct extra; [|discriminate Ha].
  destruct extra'; [|discriminate Hb].
  cbv in Ha, Hb. injection Ha as <-. injection Hb as <-.
  repeat split; apply py_eq_class; discriminate.
Qed.

Lemma Void_instances_equal_witness :
  py_eq (Void 0) (Void 0) = true
  /\ py_eq (Void 0) (Bitfield 0) = false /\ py_eq (Bitfield 0) (Void 0) = false.
Proof.
  apply (Void_instances_equal [] [] (Void 0) (Void 0) 0); reflexivity.
Defined.

(** X4.  Equal instances are interchangeable: replacing an operand, a pointee
    or an array's element type by an instance equal to it does not change the
    answer of any comparison. *)
Theorem py_eq_congruence (p p' q : Type_) (ts n : Z) :
  py_eq p p' = true ->
  py_eq p q = py_eq p' q
  /\ py_eq (Pointer ts p) q = py_eq (Pointer ts p') q
  /\ py_eq (Array ts n p) q = py_eq (Array ts n p') q.
Proof.
  intros H. apply py_eq_true_iff in H.
  repeat split; apply py_eq_compared; simpl; rewrite ?H; reflexivity.
Qed.

Lemma py_eq_congruence_witness :
  py_eq (Void 0) (Pointer 64 (Void 0)) = py_eq (Void 0) (Pointer 64 (Void 0))
  /\ py_eq (Pointer 64 (Void 0)) (Pointer 64 (Void 0))
     = py_eq (Pointer 64 (Void 0)) (Pointer 64 (Void 0))
  /\ py_eq (Array 0 2 (Void 0)) (Pointer 64 (Void 0))
     = py_eq (Array 0 2 (Void 0)) (Pointer 64 (Void 0)).
Proof.
  apply (py_eq_congruence (Void 0) (Void 0) (Pointer 64 (Void 0)) 64 2).
  reflexivity.
Defined.

(** X5.  The two methods that [==] may ask agree: [a.__eq__(b)] and
    [b.__eq__(a)] give the same answer, [NotImplemented] included.  So the
    reflected call never decides a comparison, and [a == b] is the answer of
    [a.__eq__(b)], read as false when it is [NotImplemented]. *)
Theorem method_eq_symmetric (a b : Type_) :
  method_eq py_eq a b = method_eq py_eq b a
  /\ py_eq a b = match method_eq py_eq a b with
                 | Some r => r
                 | None => false
                 end.
Proof.
  assert (Hsym : method_eq py_eq a b = method_eq py_eq b a).
  { destruct a as [ts|ts|ts ty|ts ty|ts ty|ts ty|ts p|ts n e],
             b as [ts'|ts'|ts' ty'|ts' ty'|ts' ty'|ts' ty'|ts' p'|ts' n' e'];
      simpl; try reflexivity; unfold Type___eq__; simpl;
      rewrite (Z.eqb_sym ts ts');
      try rewrite (String.eqb_sym ty ty');
      try rewrite (py_eq_sym p p');
      try rewrite (Z.eqb_sym n n'), (py_eq_sym e e');
      reflexivity. }
  split; [exact Hsym|].
  rewrite py_eq_unfold. unfold rich_compare. rewrite <- Hsym.
  destruct (method_eq py_eq a b); reflexivity.
Qed.

(** X6.  Instances that compare equal have the same class, the same total
    size and the same depth of nesting; in particular a pointer never equals
    its pointee and an array never equals its element type. *)
Theorem py_eq_same_shape (a b : Type_) (ts n : Z) :
  (py_eq a b = true ->
   class_of a = class_of b /\ total_size a = total_size b /\ height a = height b)
  /\ py_eq (Pointer ts a) a = false /\ py_eq a (Pointer ts a) = false
  /\ py_eq (Array ts n a) a = false /\ py_eq a (Array ts n a) = false.
Proof.
  split; [apply py_eq_shape|].
  repeat split;
    match goal with |- ?e = false => destruct e eqn:E end; try reflexivity;
    apply py_eq_shape in E as (_ & _ & E); simpl in E; lia.
Qed.

Lemma py_eq_same_shape_witness :
  class_of (Pointer 64 (Void 0)) = class_of (Pointer 64 (Void 0))
  /\ total_size (Pointer 64 (Void 0)) = total_size (Pointer 64 (Void 0))
  /\ height (Pointer 64 (Void 0)) = height (Pointer 64 (Void 0)).
Proof.
  apply (py_eq_same_shape (Pointer 64 (Void 0)) (Pointer 64 (Void 0)) 0 0).
  reflexivity.
Defined.

(** X7.  The [type] attribute of a [Function] is the only thing [==] does not
    read: two instances are equal exactly when they agree once that attribute
    is disregarded, wherever the [Function] occurs. *)
Theorem py_eq_ignores_Function_type (a b : Type_) (ts : Z) (ty ty' : string) :
  (py_eq a b = true <-> compared a = compared b)
  /\ py_eq (Function ts ty) (Function ts ty') = true
  /\ py_eq (Pointer ts (Function ts ty)) (Pointer ts (Function ts ty')) = true.
Proof.
  split; [apply py_eq_true_iff|]. split; apply py_eq_true_iff; reflexivity.
Qed.

(** * Properties of the tests' driver *)

(** X8.  [run_gcc] passes the plug-in's [struct] option exactly when
    [struct_name] is a string that is not empty: an empty name gives the same
    command as [None], so that everything is dumped.  When the option is
    passed it is the fourth argument, and the source file is always the last
    one. *)
Theorem run_gcc_struct_option
  (so code_path output_path : string) (struct_name : option string) :
  (run_gcc so code_path output_path struct_name
   = run_gcc so code_path output_path None
   <-> struct_name = None \/ struct_name = Some "")
  /\ (forall name, struct_name = Some name -> name <> "" ->
        run_gcc so code_path output_path struct_name !! 3%nat
        = Some (String.append "-fplugin-arg-struct_layout-struct=" name)
        /\ length (run_gcc so code_path output_path struct_name) = 10%nat)
  /\ last (run_gcc so code_path output_path struct_name) = Some code_path.
Proof.
  split; [|split].
  - split.
    + destruct struct_name as [name|]; [|auto].
      unfold run_gcc. destruct (String.eqb_spec name "") as [->|Hne]; [auto|].
      intros H. apply (f_equal (@length string)) in H. discriminate H.
    + intros [->| ->]; reflexivity.
  - intros name -> Hne. unfold run_gcc.
    destruct (String.eqb_spec name ""); [contradiction|]. split; reflexivity.
  - unfold run_gcc. destruct struct_name as [name|]; [|reflexivity].
    destruct (String.eqb name ""); reflexivity.
Qed.

Lemma run_gcc_struct_option_witness :
  run_gcc "struct_layout.so" "x.c" "out.py" (Some "x") !! 3%nat
  = Some "-fplugin-arg-struct_layout-struct=x"
  /\ length (run_gcc "struct_layout.so" "x.c" "out.py" (Some "x")) = 10%nat.
Proof.
  apply (run_gcc_struct_option "struct_layout.so" "x.c" "out.py" (Some "x") ).
  - reflexivity.
  - discriminate.
Defined.
